(** * Total byte weight audit (lighthouse-core/audits/byte-efficiency/total-byte-weight.js)

    A shallow embedding of [TotalByteWeight]: the network records of a page
    load are filtered, their transfer sizes summed, the ten largest kept, and
    the sum handed to the score curve.

    JavaScript numbers are modelled by [Z]: byte counts are integers, and
    integer sums and differences are exact in a double below 2^53.  Arrays are
    objects in a store, since [push] and [sort] update them in place and the
    record list is an object the audit is handed, not a copy of its own. *)

From Stdlib Require Import QArith Qcanon.
From stdpp Require Import base numbers strings pretty list sorting gmap.

Local Open Scope Z_scope.

(** ** Collaborators that are not part of this file *)

(** Modelled from the spec: [WebInspector.resourceTypes] (lib/web-inspector) is
    required by the audit and is not among the sources; the spec describes the
    resource type as a classification tag (script, image, stylesheet, etc.).
    The audit only compares a tag with [Script], by identity. *)
Module WebInspector.
Inductive ResourceType := Script | Image | Stylesheet | Document | Font | Media | Other.

#[global] Instance ResourceType_eq_dec : EqDecision ResourceType.
Proof. solve_decision. Defined.
End WebInspector.

(** Modelled from the spec: [ByteEfficiencyAudit.bytesToMs] is inherited from
    byte-efficiency-audit.js, which is not among the sources.  The spec (4.1
    step 2 and section 7) gives the estimated transfer time as bytes divided by
    the throughput, and 0 when the throughput is zero or unavailable.  An
    unavailable throughput is [None]. *)
Definition bytesToMs_spec (bytes : Z) (networkThroughput : option Qc) : Qc :=
  match networkThroughput with
  | None => 0%Qc
  | Some t => if decide (t = 0%Qc) then 0%Qc else (Q2Qc (inject_Z bytes) / t)%Qc
  end.

(** ** Data model *)

(** The fields of a network record that the audit reads. *)
Record NetworkRequest := {
  url : string;
  scheme : string;
  finished : bool;
  transferSize : Z;
  _resourceType : WebInspector.ResourceType;
}.

(** [context.options] *)
Record Options := {
  scorePODR : Z;
  scoreMedian : Z;
}.

(** A column heading of the table (lines 95-105). *)
Record Heading := {
  key : string;
  itemType : string;
  displayUnit : option string;
  granularity : option Z;
  text : string;
}.

(** Line 14. *)
Definition BUNDLE_SIZE_THRESHOLD : Z := 170 * 1024.

(** Lines 37-44. *)
Definition defaultOptions : Options :=
  {| scorePODR := 2500 * 1024; scoreMedian := 4000 * 1024 |}.

(** Lines 52-55. *)
Definition hasExceededJSBundleSize (record : NetworkRequest) : bool :=
  bool_decide (_resourceType record = WebInspector.Script)
  && (BUNDLE_SIZE_THRESHOLD <? transferSize record).

(** Lines 95-105. *)
Definition headings : list Heading :=
  [ {| key := "url"; itemType := "url"; displayUnit := None; granularity := None;
       text := "URL" |};
    {| key := "totalBytes"; itemType := "bytes"; displayUnit := Some "kb";
       granularity := Some 1; text := "Total Size" |};
    {| key := "totalMs"; itemType := "ms"; displayUnit := None; granularity := None;
       text := "Transfer Time" |} ].

(** ** [Array.prototype.sort]

    [cmp a b] is the comparator's number: negative when [a] goes first,
    positive when [b] goes first.  ECMAScript (2019) requires the sort to be
    stable; for a comparator that orders by a key that fixes the result
    ([stable_sort_unique] below), which is computed here by insertion from
    the right. *)
Section Sort.
Context {A : Type}.
Variable cmp : A → A → Z.

Fixpoint insert_sorted (x : A) (l : list A) : list A :=
  match l with
  | [] => [x]
  | y :: l' => if cmp x y <=? 0 then x :: l else y :: insert_sorted x l'
  end.

Definition sort (l : list A) : list A := foldr insert_sorted [] l.
End Sort.

(** The sum of a list of numbers. *)
Definition sumZ (l : list Z) : Z := foldr Z.add 0 l.

(** The object built per record (lines 75-80); the estimated time is
    whatever [bytesToMs] returns.  Its [url] is [r_url] here, [url] being the
    record's. *)
Record Result {Ms : Type} := {
  r_url : string;
  totalBytes : Z;
  totalMs : Ms;
  flagged : bool;
}.
Arguments Result : clear implicits.

(** The static helpers that [TotalByteWeight] inherits from
    [ByteEfficiencyAudit] (byte-efficiency-audit.js, not among the sources):
    the audit is stated over any implementation of them.  A throughput, an
    estimated time, a score and a table are whatever they work on. *)
Class ByteEfficiencyAudit (Throughput Ms Score Details : Type) := {
  bytesToMs : Z → Throughput → Ms;
  computeLogNormalScore : Z → Z → Z → Score;
  makeTableDetails : list Heading → list (Result Ms) → Details;
}.

(** [Util.formatBytesToKB] (report/html/renderer/util, not among the sources). *)
Class Util := {
  formatBytesToKB : Z → Z → string;
}.

(** The helpers with the transfer time of the spec, the score and the table
    being given. *)
Definition specModelled {Score Details : Type} (curve : Z → Z → Z → Score)
    (table : list Heading → list (Result Qc) → Details) :
    ByteEfficiencyAudit (option Qc) Qc Score Details :=
  {| bytesToMs := bytesToMs_spec;
     computeLogNormalScore := curve;
     makeTableDetails := table |}.

Section TotalByteWeight.
Context {Throughput Ms Score Details : Type}.
Context {base : ByteEfficiencyAudit Throughput Ms Score Details} {util : Util}.

(** *** The store *)

Definition loc := positive.

(** What a reference points to: the record list, an array of results, or a
    [let] variable captured by the callback. *)
Inductive object :=
| ArrRecords (a : list NetworkRequest)
| ArrResults (a : list (Result Ms))
| Num (n : Z).

Abbreviation heap := (gmap loc object).

(** Computations over the store; [None] is a thrown TypeError. *)
Definition M (T : Type) : Type := heap → option (T * heap).

Definition ret {T} (x : T) : M T := λ h, Some (x, h).

Definition bind {T U} (m : M T) (k : T → M U) : M U :=
  λ h, match m h with
       | Some (x, h') => k x h'
       | None => None
       end.

Notation "'let!' x ':=' m 'in' k" := (bind m (λ x, k))
  (at level 10, x name, m at level 100, k at level 200,
   format "'[' 'let!'  x  ':='  m  'in' ']' '/' k").
Notation "m ';;' k" := (bind m (λ _, k))
  (at level 100, k at level 200, right associativity).

(** A new object, at a reference not in use. *)
Definition alloc (o : object) : M loc :=
  λ h, let l := fresh (dom h) in Some (l, <[l := o]> h).

Definition readRecords (l : loc) : M (list NetworkRequest) :=
  λ h, match h !! l with Some (ArrRecords a) => Some (a, h) | _ => None end.

Definition readResults (l : loc) : M (list (Result Ms)) :=
  λ h, match h !! l with Some (ArrResults a) => Some (a, h) | _ => None end.

Definition readNum (l : loc) : M Z :=
  λ h, match h !! l with Some (Num n) => Some (n, h) | _ => None end.

Definition writeNum (l : loc) (n : Z) : M unit :=
  λ h, match h !! l with Some (Num _) => Some ((), <[l := Num n]> h) | _ => None end.

(** [a.push(x)] *)
Definition push (l : loc) (x : Result Ms) : M unit :=
  λ h, match h !! l with
       | Some (ArrResults a) => Some ((), <[l := ArrResults (a ++ [x])]> h)
       | _ => None
       end.

(** [a.sort(cmp)]: sorts the array where it is and returns the same array. *)
Definition sortInPlace (l : loc) (cmp : Result Ms → Result Ms → Z) : M loc :=
  λ h, match h !! l with
       | Some (ArrResults a) => Some (l, <[l := ArrResults (sort cmp a)]> h)
       | _ => None
       end.

(** [a.slice(0, n)]: a new array. *)
Definition slice0 (l : loc) (n : nat) : M loc :=
  let! a := readResults l in alloc (ArrResults (take n a)).

(** [a.forEach(f)]: the length is read once, each element when its turn
    comes; an index that is no longer there is skipped. *)
Fixpoint forEachFrom (l : loc) (f : NetworkRequest → M unit) (i n : nat) : M unit :=
  match n with
  | O => ret ()
  | S n' =>
      let! a := readRecords l in
      match a !! i with Some r => f r | None => ret () end;;
      forEachFrom l f (S i) n'
  end.

Definition forEach (l : loc) (f : NetworkRequest → M unit) : M unit :=
  let! a := readRecords l in forEachFrom l f 0 (length a).

(** *** The audit *)

Record ExtendedInfo := {
  results : loc;
  totalCompletedRequests : nat;
}.

Record AuditResult := {
  score : Score;
  rawValue : Z;
  displayValue : string;
  extendedInfo : ExtendedInfo;
  details : Details;
}.

(** The object literal of lines 75-80. *)
Definition mkResult (networkThroughput : Throughput) (record : NetworkRequest) : Result Ms :=
  {| r_url := url record;
     totalBytes := transferSize record;
     totalMs := bytesToMs (transferSize record) networkThroughput;
     flagged := hasExceededJSBundleSize record |}.

(** The callback of lines 70-84; [totalBytes_] and [results_] are the
    variables of lines 68 and 69 that it captures. *)
Definition collect (totalBytes_ results_ : loc) (networkThroughput : Throughput)
    (record : NetworkRequest) : M unit :=
  if String.eqb (scheme record) "data" || negb (finished record) then ret ()
  else
    let result := mkResult networkThroughput record in
    (let! t := readNum totalBytes_ in writeNum totalBytes_ (t + totalBytes result));;
    push results_ result.

(** The comparator of line 87. *)
Definition byTotalBytesDesc (itemA itemB : Result Ms) : Z :=
  totalBytes itemB - totalBytes itemA.

(** Lines 67-121: the body run once both inputs are there.  Line 87 binds
    [results] anew, to the slice; [totalBytes] does not change after the
    loop and is read once, as [total]. *)
Definition audit (networkRecords : loc) (networkThroughput : Throughput)
    (options : Options) : M AuditResult :=
  let! totalBytes_ := alloc (Num 0) in
  let! results_ := alloc (ArrResults []) in
  forEach networkRecords (collect totalBytes_ results_ networkThroughput);;
  let! all := readResults results_ in
  let totalCompletedRequests_ := length all in
  let! sorted := sortInPlace results_ byTotalBytesDesc in
  let! results_ := slice0 sorted 10 in
  let! total := readNum totalBytes_ in
  let score_ := computeLogNormalScore total (scorePODR options) (scoreMedian options) in
  let! items := readResults results_ in
  let tableDetails := makeTableDetails headings items in
  ret {| score := score_;
         rawValue := total;
         displayValue := "Total size was " +:+ formatBytesToKB total 1;
         extendedInfo := {| results := results_;
                            totalCompletedRequests := totalCompletedRequests_ |};
         details := tableDetails |}.

(** *** What the claims speak of *)

(** A record that line 73 does not skip. *)
Definition included (record : NetworkRequest) : Prop :=
  scheme record ≠ "data" ∧ finished record = true.

#[global] Instance included_dec record : Decision (included record).
Proof. unfold included. apply _. Defined.

(** The array that [extendedInfo.value.results] refers to. *)
Definition topResults (h : heap) (o : AuditResult) : option (list (Result Ms)) :=
  match h !! results (extendedInfo o) with
  | Some (ArrResults a) => Some a
  | _ => None
  end.

(** What a caller reads off a result: its fields, with the array taken out
    of the store. *)
Definition observe (h : heap) (o : AuditResult) :
    Score * Z * string * option (list (Result Ms)) * nat * Details :=
  (score o, rawValue o, displayValue o, topResults h o,
   totalCompletedRequests (extendedInfo o), details o).

(** A result without its transfer time. *)
Definition withoutMs (r : Result Ms) : string * Z * bool :=
  (r_url r, totalBytes r, flagged r).

End TotalByteWeight.

Arguments object : clear implicits.
Arguments M : clear implicits.
Abbreviation heap Ms := (gmap loc (object Ms)).

(** ** The scenarios of the spec, to run the audit on *)

(** Helpers to run with: the transfer time of the spec; the score and the
    table stand for the calls that make them (their arguments); the formatter
    prints the number of bytes. *)
Definition exampleHelpers :
    ByteEfficiencyAudit (option Qc) Qc (Z * Z * Z) (list Heading * list (Result Qc)) :=
  specModelled (λ value podr median, (value, podr, median)) (λ hs rs, (hs, rs)).

Definition exampleUtil : Util :=
  {| formatBytesToKB := λ bytes _, pretty bytes |}.

(** Scenarios 1 to 3: a large script, a data URI and an unfinished request. *)
Definition scenario123 : list NetworkRequest :=
  [ {| url := "a.js"; scheme := "http"; finished := true; transferSize := 200000;
       _resourceType := WebInspector.Script |};
    {| url := "b.png"; scheme := "data"; finished := true; transferSize := 5000;
       _resourceType := WebInspector.Image |};
    {| url := "c.js"; scheme := "http"; finished := false; transferSize := 999999;
       _resourceType := WebInspector.Script |} ].

(** Scenario 4: fifteen finished http records of 1000 bytes each. *)
Definition scenario4 : list NetworkRequest :=
  (λ u, {| url := u; scheme := "http"; finished := true; transferSize := 1000;
           _resourceType := WebInspector.Image |})
  <$> ["r01"; "r02"; "r03"; "r04"; "r05"; "r06"; "r07"; "r08"; "r09"; "r10";
       "r11"; "r12"; "r13"; "r14"; "r15"].

(** A store that holds a record list and nothing else. *)
Definition storeOf (records : list NetworkRequest) : heap Qc :=
  {[ 1%positive := ArrRecords records ]}.

(** A throughput of 100 bytes per millisecond. *)
Definition throughput100 : option Qc := Some (Q2Qc (inject_Z 100)).

(** A store that holds the variables of lines 68 and 69 as they start. *)
Definition loopStore : heap Qc :=
  {[ 2%positive := Num 0; 3%positive := ArrResults [] ]}.

(** * Properties *)

(** ** The sort *)
Section SortFacts.
Context {A : Type}.
Variable cmp : A → A → Z.

Lemma insert_sorted_perm x l : insert_sorted cmp x l ≡ₚ x :: l.
Proof.
  induction l as [|y l IH]; simpl; [done|].
  destruct (cmp x y <=? 0); [done|].
  rewrite IH. apply Permutation_swap.
Qed.

Lemma sort_perm l : sort cmp l ≡ₚ l.
Proof.
  induction l as [|x l IH]; simpl; [done|].
  rewrite insert_sorted_perm. by f_equiv.
Qed.

Lemma sort_length l : length (sort cmp l) = length l.
Proof. by rewrite sort_perm. Qed.

(** A class of elements that compare equal among themselves keeps its
    order: each new element is put before the first one it does not come
    after, hence before every one of its class. *)
Lemma insert_sorted_filter (P : A → Prop) `{!∀ x, Decision (P x)} x l :
  (∀ a b, P a → P b → cmp a b ≤ 0) →
  filter P (insert_sorted cmp x l) = filter P (x :: l).
Proof.
  intros Hcls. induction l as [|y l IH]; simpl; [done|].
  destruct (cmp x y <=? 0) eqn:Hc; [done|].
  apply Z.leb_gt in Hc.
  rewrite (filter_cons P y), IH, !filter_cons.
  destruct (decide (P x)) as [Hx|Hx]; [|done].
  destruct (decide (P y)) as [Hy|Hy]; [|done].
  specialize (Hcls x y Hx Hy). lia.
Qed.

Lemma sort_stable (P : A → Prop) `{!∀ x, Decision (P x)} l :
  (∀ a b, P a → P b → cmp a b ≤ 0) →
  filter P (sort cmp l) = filter P l.
Proof.
  intros Hcls. induction l as [|x l IH]; simpl; [done|].
  rewrite insert_sorted_filter by done.
  by rewrite !filter_cons, IH.
Qed.

Lemma insert_sorted_sorted x l :
  (∀ a b, 0 < cmp a b → cmp b a ≤ 0) →
  (∀ a b c, cmp a b ≤ 0 → cmp b c ≤ 0 → cmp a c ≤ 0) →
  StronglySorted (λ a b, cmp a b ≤ 0) l →
  StronglySorted (λ a b, cmp a b ≤ 0) (insert_sorted cmp x l).
Proof.
  intros Htot Htrans. induction 1 as [|y l Hl IH Hy]; simpl.
  - repeat constructor.
  - destruct (cmp x y <=? 0) eqn:Hc.
    + apply Z.leb_le in Hc. constructor; [by constructor|].
      constructor; [done|]. eapply Forall_impl; [exact Hy|].
      intros z Hz. by eapply Htrans.
    + apply Z.leb_gt in Hc. constructor; [done|].
      rewrite insert_sorted_perm. constructor; [by apply Htot|done].
Qed.

Lemma sort_sorted l :
  (∀ a b, 0 < cmp a b → cmp b a ≤ 0) →
  (∀ a b c, cmp a b ≤ 0 → cmp b c ≤ 0 → cmp a c ≤ 0) →
  StronglySorted (λ a b, cmp a b ≤ 0) (sort cmp l).
Proof.
  intros Htot Htrans. induction l as [|x l IH]; simpl; [constructor|].
  by apply insert_sorted_sorted.
Qed.

(** When all elements compare equal, nothing moves. *)
Lemma sort_all_equal l :
  (∀ a b, a ∈ l → b ∈ l → cmp a b ≤ 0) → sort cmp l = l.
Proof.
  induction l as [|x l IH]; intros Heq; simpl; [done|].
  rewrite IH by (intros; apply Heq; by constructor).
  destruct l as [|y l]; simpl; [done|].
  assert (cmp x y ≤ 0) as Hxy by (apply Heq; repeat constructor).
  apply Z.leb_le in Hxy. by rewrite Hxy.
Qed.
End SortFacts.

(** Sorting commutes with a map that keeps the comparator's answers. *)
Lemma insert_sorted_fmap {A B} (cmpA : A → A → Z) (cmpB : B → B → Z) (f : A → B) x l :
  (∀ a b, cmpB (f a) (f b) = cmpA a b) →
  insert_sorted cmpB (f x) (f <$> l) = f <$> insert_sorted cmpA x l.
Proof.
  intros Hf. induction l as [|y l IH]; [done|].
  rewrite fmap_cons. cbn [insert_sorted]. rewrite Hf.
  destruct (cmpA x y <=? 0); [done|]. by rewrite IH, fmap_cons.
Qed.

Lemma sort_fmap {A B} (cmpA : A → A → Z) (cmpB : B → B → Z) (f : A → B) l :
  (∀ a b, cmpB (f a) (f b) = cmpA a b) →
  sort cmpB (f <$> l) = f <$> sort cmpA l.
Proof.
  intros Hf. induction l as [|x l IH]; [done|].
  rewrite fmap_cons. unfold sort in *. cbn [foldr].
  rewrite IH. by apply insert_sorted_fmap.
Qed.

Lemma StronglySorted_weaken {A} (R R' : A → A → Prop) (l : list A) :
  (∀ a b, R a b → R' a b) → StronglySorted R l → StronglySorted R' l.
Proof.
  intros HR. induction 1 as [|x l _ IH Hx]; constructor; [done|].
  eapply Forall_impl; [exact Hx|]. intros; by apply HR.
Qed.

Lemma filter_prefix {A} (P : A → Prop) `{!∀ x, Decision (P x)} (l1 l2 : list A) :
  l1 `prefix_of` l2 → filter P l1 `prefix_of` filter P l2.
Proof. intros [k ->]. rewrite filter_app. by eexists. Qed.

Section StableSortUnique.
Context {A : Type}.
Variable key : A → Z.

(** Two lists in descending order of [key] whose classes of equal key are
    the same lists are equal. *)
Lemma sorted_classes_unique (s1 s2 : list A) :
  StronglySorted (λ a b, key b ≤ key a) s1 →
  StronglySorted (λ a b, key b ≤ key a) s2 →
  (∀ k, filter (λ a, key a = k) s1 = filter (λ a, key a = k) s2) →
  s1 = s2.
Proof.
  intros Hs1. revert s2.
  induction Hs1 as [|x t Ht IH Hx]; intros s2 Hs2 Hcls.
  - destruct s2 as [|y t2]; [done|].
    specialize (Hcls (key y)). rewrite filter_cons_True in Hcls by done. done.
  - destruct Hs2 as [|y t2 Ht2 Hy].
    { specialize (Hcls (key x)). rewrite filter_cons_True in Hcls by done. done. }
    assert (key y ≤ key x) as Hyx.
    { assert (y ∈ filter (λ a, key a = key y) (x :: t)) as Hin
        by (rewrite Hcls; apply list_elem_of_filter; split; [done|left]).
      apply list_elem_of_filter in Hin as [Hk Hin].
      apply elem_of_cons in Hin as [->|Hin]; [lia|].
      rewrite Forall_forall in Hx. specialize (Hx _ Hin). lia. }
    assert (key x ≤ key y) as Hxy.
    { assert (x ∈ filter (λ a, key a = key x) (y :: t2)) as Hin
        by (rewrite <- Hcls; apply list_elem_of_filter; split; [done|left]).
      apply list_elem_of_filter in Hin as [Hk Hin].
      apply elem_of_cons in Hin as [->|Hin]; [lia|].
      rewrite Forall_forall in Hy. specialize (Hy _ Hin). lia. }
    assert (x = y) as <-.
    { specialize (Hcls (key x)).
      rewrite !filter_cons_True in Hcls by lia. congruence. }
    f_equal. apply IH; [done|]. intros k. specialize (Hcls k).
    rewrite !filter_cons in Hcls. destruct (decide (key x = k)); congruence.
Qed.

(** The stable sort is the only list in descending order that keeps every
    class of equal keys in the order of the input: the way the sort is
    computed does not matter. *)
Lemma stable_sort_unique (l s : list A) :
  StronglySorted (λ a b, key b ≤ key a) s →
  (∀ k, filter (λ a, key a = k) s = filter (λ a, key a = k) l) →
  s = sort (λ a b, key b - key a) l.
Proof.
  intros Hs Hcls. apply sorted_classes_unique; [done| |].
  - eapply StronglySorted_weaken; [|apply sort_sorted].
    + intros a b ?. cbv beta in *. lia.
    + intros; lia.
    + intros; lia.
  - intros k. rewrite Hcls. symmetry. apply sort_stable. intros; lia.
Qed.
End StableSortUnique.

(** ** The store and the loop *)
Section TotalByteWeightFacts.
Context {Throughput Ms Score Details : Type}.
Context {base : ByteEfficiencyAudit Throughput Ms Score Details} {util : Util}.
Implicit Types (h g : gmap loc (object Ms)) (l : loc) (records : list NetworkRequest).

Lemma bind_Some {T U} (m : M Ms T) (k : T → M Ms U) h x h' :
  m h = Some (x, h') → bind m k h = k x h'.
Proof. unfold bind. by intros ->. Qed.

Lemma fresh_lookup h : h !! fresh (dom h) = None.
Proof. apply not_elem_of_dom, is_fresh. Qed.

Lemma included_guard record :
  String.eqb (scheme record) "data" || negb (finished record) = false ↔ included record.
Proof.
  unfold included. rewrite orb_false_iff, String.eqb_neq, negb_false_iff. done.
Qed.

(** One call of the callback, from a store where the two captured variables
    hold [t] and [a]. *)
Lemma collect_step g tb res thr t a record :
  tb ≠ res →
  collect tb res thr record (<[res := ArrResults a]> (<[tb := Num t]> g)) =
  Some ((), if decide (included record)
            then <[res := ArrResults (a ++ [mkResult thr record])]>
                   (<[tb := Num (t + transferSize record)]> g)
            else <[res := ArrResults a]> (<[tb := Num t]> g)).
Proof.
  intros Hne. unfold collect.
  destruct (decide (included record)) as [Hin|Hin].
  - apply included_guard in Hin. rewrite Hin.
    unfold bind, readNum, writeNum, push.
    rewrite lookup_insert_ne, lookup_insert_eq by done.
    rewrite lookup_insert_ne, lookup_insert_eq by done.
    rewrite (insert_insert_ne _ tb res) by done.
    rewrite insert_insert_eq, lookup_insert_eq, insert_insert_eq. done.
  - rewrite <- included_guard in Hin. apply not_false_is_true in Hin.
    by rewrite Hin.
Qed.

(** The loop from index [i]: the records not yet seen that pass line 73 are
    appended in their order and their sizes added up; nothing else changes. *)
Lemma forEachFrom_collect g l tb res thr records n :
  ∀ i t a,
  g !! l = Some (ArrRecords records) → l ≠ tb → l ≠ res → tb ≠ res →
  (i + n = length records)%nat →
  forEachFrom l (collect tb res thr) i n (<[res := ArrResults a]> (<[tb := Num t]> g)) =
  Some ((), <[res := ArrResults (a ++ (mkResult thr <$> filter included (drop i records)))]>
              (<[tb := Num (t + sumZ (transferSize <$> filter included (drop i records)))]> g)).
Proof.
  induction n as [|n IH]; intros i t a Hl Hltb Hlres Hne Hlen.
  - rewrite drop_ge by lia. cbn. by rewrite app_nil_r, Z.add_0_r.
  - destruct (lookup_lt_is_Some_2 records i) as [r Hr]; [lia|].
    rewrite (drop_S _ _ _ Hr), filter_cons.
    cbn [forEachFrom]. unfold bind at 1, readRecords at 1.
    rewrite !lookup_insert_ne, Hl by done.
    rewrite Hr. unfold bind at 1. rewrite collect_step by done.
    destruct (decide (included r)).
    + rewrite IH by (done || lia).
      rewrite !fmap_cons. cbn [sumZ foldr mkResult totalBytes].
      by rewrite <- app_assoc, Z.add_assoc.
    + by rewrite IH by (done || lia).
Qed.

(** The whole run: from a store that holds the record list, the audit
    returns, with three new objects in the store and the rest as it was. *)
Lemma audit_run h l thr opts records :
  h !! l = Some (ArrRecords records) →
  let all := mkResult thr <$> filter included records in
  let total := sumZ (transferSize <$> filter included records) in
  let top := take 10 (sort byTotalBytesDesc all) in
  ∃ tb res out,
    h !! tb = None ∧ h !! res = None ∧ h !! out = None ∧
    tb ≠ res ∧ tb ≠ out ∧ res ≠ out ∧
    audit l thr opts h =
    Some ({| score := computeLogNormalScore total (scorePODR opts) (scoreMedian opts);
             rawValue := total;
             displayValue := "Total size was " +:+ formatBytesToKB total 1;
             extendedInfo := {| results := out;
                                totalCompletedRequests := length all |};
             details := makeTableDetails headings top |},
          <[out := ArrResults top]>
            (<[res := ArrResults (sort byTotalBytesDesc all)]>
               (<[tb := Num total]> h))).
Proof.
  intros Hl all total top.
  set (tb := fresh (dom h)).
  set (h1 := <[tb := Num 0]> h).
  set (res := fresh (dom h1)).
  set (h2 := <[res := ArrResults []]> h1).
  assert (h !! tb = None) as Htb by apply fresh_lookup.
  assert (h1 !! res = None) as Hres1 by apply fresh_lookup.
  assert (tb ≠ res) as Hne.
  { intros E. rewrite <- E in Hres1. unfold h1 in Hres1.
    by rewrite lookup_insert_eq in Hres1. }
  assert (h !! res = None) as Hres.
  { unfold h1 in Hres1. by rewrite lookup_insert_ne in Hres1. }
  assert (l ≠ tb) as Hltb by congruence.
  assert (l ≠ res) as Hlres by congruence.
  set (h3 := <[res := ArrResults (sort byTotalBytesDesc all)]> (<[tb := Num total]> h)).
  set (out := fresh (dom h3)).
  assert (h3 !! out = None) as Hout3 by apply fresh_lookup.
  assert (res ≠ out) as Hro.
  { intros E. rewrite <- E in Hout3. unfold h3 in Hout3.
    by rewrite lookup_insert_eq in Hout3. }
  assert (tb ≠ out) as Hto.
  { intros E. rewrite <- E in Hout3. unfold h3 in Hout3.
    by rewrite lookup_insert_ne, lookup_insert_eq in Hout3. }
  assert (h !! out = None) as Hout.
  { unfold h3 in Hout3. by rewrite !lookup_insert_ne in Hout3. }
  exists tb, res, out. repeat (split; [done|]).
  unfold audit.
  rewrite (bind_Some _ _ h tb h1) by done.
  rewrite (bind_Some _ _ h1 res h2) by done.
  erewrite (bind_Some (forEach _ _)); cycle 1.
  { unfold forEach, bind at 1, readRecords at 1, h2, h1.
    rewrite !lookup_insert_ne, Hl by done.
    rewrite (forEachFrom_collect h l tb res thr records (length records) 0%nat 0 [])
      by done.
    rewrite drop_0, app_nil_l, Z.add_0_l. done. }
  fold all total.
  unfold bind, readResults, sortInPlace, slice0, bind, readResults, alloc, readNum, ret.
  rewrite lookup_insert_eq; cbv beta iota.
  rewrite lookup_insert_eq; cbv beta iota.
  rewrite insert_insert_eq. fold h3.
  assert (h3 !! res = Some (ArrResults (sort byTotalBytesDesc all))) as ->
    by apply lookup_insert_eq.
  cbv beta iota zeta. fold out.
  assert (h3 !! tb = Some (Num total)) as Htb3.
  { unfold h3. by rewrite lookup_insert_ne, lookup_insert_eq. }
  rewrite lookup_insert_ne, Htb3 by done.
  cbv beta iota. by rewrite lookup_insert_eq.
Qed.

(** Runs the audit from the store of [Hl], naming the run [Hrun]. *)
Ltac run_audit Hl thr opts Hrun :=
  let tb := fresh "tb" in
  let res := fresh "res" in
  let out := fresh "out" in
  destruct (audit_run _ _ thr opts _ Hl)
    as (tb & res & out & _ & _ & _ & _ & _ & _ & Hrun).

(** Reads the array of the result out of the store just built. *)
Ltac read_top := unfold topResults; cbn; by rewrite lookup_insert_eq.

(** The results in the order the records were met. *)
Lemma totalBytes_mkResult thr records :
  totalBytes <$> (mkResult thr <$> records) = transferSize <$> records.
Proof. rewrite <- list_fmap_compose. by apply list_fmap_ext. Qed.

(** C1: for every list of network records, [rawValue] is the sum of
    [transferSize] over exactly the records whose scheme is not 'data' and
    whose [finished] flag is true: over all of them, not only the ten that
    [topResults] shows. *)
Theorem rawValue_sums_included h l thr opts records :
  h !! l = Some (ArrRecords records) →
  ∃ o h', audit l thr opts h = Some (o, h') ∧
    rawValue o = sumZ (transferSize <$> filter included records).
Proof.
  intros Hl.
  run_audit Hl thr opts Hrun.
  eexists _, _. split; [exact Hrun|]. done.
Qed.

(** C3: [totalCompletedRequests] is the number of records that pass the
    filter (scheme not 'data', finished), counted before the list of results
    is cut to its first ten. *)
Theorem totalCompletedRequests_counts_included h l thr opts records :
  h !! l = Some (ArrRecords records) →
  ∃ o h', audit l thr opts h = Some (o, h') ∧
    totalCompletedRequests (extendedInfo o) = length (filter included records).
Proof.
  intros Hl.
  run_audit Hl thr opts Hrun.
  eexists _, _. split; [exact Hrun|]. cbn. by rewrite length_fmap.
Qed.

(** The sorted array is in descending order of [totalBytes]. *)
Lemma sort_byTotalBytesDesc (a : list (Result Ms)) :
  StronglySorted (λ x y, totalBytes y ≤ totalBytes x) (sort byTotalBytesDesc a).
Proof.
  eapply StronglySorted_weaken; [|apply sort_sorted].
  - unfold byTotalBytesDesc. intros x y ?. cbv beta in *. lia.
  - unfold byTotalBytesDesc. intros; lia.
  - unfold byTotalBytesDesc. intros; lia.
Qed.

(** C2: [topResults] has min(10, totalCompletedRequests) entries, in
    descending order of [totalBytes], and ties keep the order in which the
    records were met (entries of one size are the first of that size in that
    order); they are the largest, the others being [rest].  In particular,
    when all included records have one size, as 15 finished records of equal
    size have, [topResults] is the first ten in the original order. *)
Theorem topResults_sorted_stable h l thr opts records :
  h !! l = Some (ArrRecords records) →
  let all := mkResult thr <$> filter included records in
  ∃ o h' top rest,
    audit l thr opts h = Some (o, h') ∧ topResults h' o = Some top ∧
    length top = (10 `min` totalCompletedRequests (extendedInfo o))%nat ∧
    StronglySorted (λ x y, totalBytes y ≤ totalBytes x) top ∧
    top ++ rest ≡ₚ all ∧
    (∀ x y, x ∈ top → y ∈ rest → totalBytes y ≤ totalBytes x) ∧
    (∀ k, filter (λ r, totalBytes r = k) top `prefix_of`
          filter (λ r, totalBytes r = k) all) ∧
    ((∀ x y, x ∈ all → y ∈ all → totalBytes x = totalBytes y) → top = take 10 all).
Proof.
  intros Hl all.
  run_audit Hl thr opts Hrun.
  fold all in Hrun. set (s := sort byTotalBytesDesc all) in *.
  assert (StronglySorted (λ x y, totalBytes y ≤ totalBytes x) (take 10 s ++ drop 10 s))
    as Hs by (rewrite take_drop; apply sort_byTotalBytesDesc).
  apply StronglySorted_app in Hs as (Hcross & Htop & _).
  eexists _, _, (take 10 s), (drop 10 s). split; [exact Hrun|].
  split; [read_top|].
  split; [subst s; simpl; by rewrite length_take, sort_length|].
  split; [exact Htop|].
  split; [rewrite take_drop; apply sort_perm|].
  split; [intros x y Hx Hy; by apply Hcross|].
  split.
  - intros k. rewrite <- (sort_stable byTotalBytesDesc (λ r, totalBytes r = k) all).
    + apply filter_prefix, prefix_take.
    + unfold byTotalBytesDesc. intros x y Hx Hy. lia.
  - intros Heq. unfold s. rewrite sort_all_equal; [done|].
    intros x y Hx Hy. unfold byTotalBytesDesc. rewrite (Heq x y Hx Hy). lia.
Qed.

Lemma hasExceededJSBundleSize_iff record :
  hasExceededJSBundleSize record = true ↔
  _resourceType record = WebInspector.Script ∧ 174080 < transferSize record.
Proof.
  unfold hasExceededJSBundleSize, BUNDLE_SIZE_THRESHOLD.
  rewrite andb_true_iff, bool_decide_eq_true, Z.ltb_lt. done.
Qed.

(** C4: for every included record the derived [flagged] field is true if
    and only if the resource type is script and [transferSize] is strictly
    greater than 174,080 bytes (170 x 1024); it is false for any other type,
    whatever the size.  The results derived from the included records are the
    array [every] that the audit leaves in the store, and [topResults] is
    taken from it. *)
Theorem flagged_iff_oversized_script h l thr opts records :
  h !! l = Some (ArrRecords records) →
  ∃ o h' every top,
    audit l thr opts h = Some (o, h') ∧
    (∃ r, h' !! r = Some (ArrResults every)) ∧
    every ≡ₚ mkResult thr <$> filter included records ∧
    topResults h' o = Some top ∧ top ⊆ every ∧
    ∀ record, included record →
      (flagged (mkResult thr record) = true ↔
       _resourceType record = WebInspector.Script ∧ 174080 < transferSize record) ∧
      (_resourceType record ≠ WebInspector.Script → flagged (mkResult thr record) = false).
Proof.
  intros Hl.
  destruct (audit_run h l thr opts records Hl)
    as (tb & res & out & _ & _ & _ & _ & _ & Hro & Hrun).
  eexists _, _, _, _. split; [exact Hrun|].
  split; [exists res; by rewrite lookup_insert_ne, lookup_insert_eq|].
  split; [apply sort_perm|].
  split; [read_top|].
  split; [apply subseteq_take|].
  intros record _. cbn [flagged mkResult]. split.
  - apply hasExceededJSBundleSize_iff.
  - intros Hty. apply not_true_is_false. rewrite hasExceededJSBundleSize_iff. tauto.
Qed.

(** The sort sees the sizes only, so the transfer times do not steer it. *)
Lemma withoutMs_top thr1 thr2 records :
  withoutMs <$> take 10 (sort byTotalBytesDesc (mkResult thr1 <$> records)) =
  withoutMs <$> take 10 (sort byTotalBytesDesc (mkResult thr2 <$> records)).
Proof.
  set (cmp := λ a b : NetworkRequest, transferSize b - transferSize a).
  rewrite !(sort_fmap cmp byTotalBytesDesc) by done.
  rewrite <- !fmap_take, <- !list_fmap_compose. by apply list_fmap_ext.
Qed.

(** C6: the throughput reaches the per-record [totalMs] only: two runs on
    the same records and options with different throughputs give the same
    [score] and [rawValue] (and the same count, summary line and results up
    to their [totalMs]). *)
Theorem throughput_noninterference h l thr1 thr2 opts records :
  h !! l = Some (ArrRecords records) →
  ∃ o1 h1 o2 h2 top1 top2,
    audit l thr1 opts h = Some (o1, h1) ∧ audit l thr2 opts h = Some (o2, h2) ∧
    score o1 = score o2 ∧ rawValue o1 = rawValue o2 ∧
    displayValue o1 = displayValue o2 ∧
    totalCompletedRequests (extendedInfo o1) = totalCompletedRequests (extendedInfo o2) ∧
    topResults h1 o1 = Some top1 ∧ topResults h2 o2 = Some top2 ∧
    withoutMs <$> top1 = withoutMs <$> top2.
Proof.
  intros Hl.
  run_audit Hl thr1 opts Hrun1.
  run_audit Hl thr2 opts Hrun2.
  eexists _, _, _, _, _, _.
  split; [exact Hrun1|]. split; [exact Hrun2|].
  repeat (split; [done|]). cbn [extendedInfo totalCompletedRequests].
  split; [by rewrite !length_fmap|].
  split; [read_top|].
  split; [read_top|].
  apply withoutMs_top.
Qed.

(** What was in the store before three new objects were added is still there. *)
Lemma lookup_insert3_old h a b c (x y z v : object Ms) r :
  h !! a = None → h !! b = None → h !! c = None → h !! r = Some v →
  <[c := z]> (<[b := y]> (<[a := x]> h)) !! r = Some v.
Proof.
  intros Ha Hb Hc Hr.
  rewrite !lookup_insert_ne by congruence. done.
Qed.

(** C8: running the audit twice on the same record list, with the same
    throughput and options, gives the same results and the same [rawValue]:
    the second run, started in the store the first one left, reads off as the
    first did; it leaves the first run's result and everything that was in
    the store (the record list too) as they were, and collects the same array
    of results in an array of its own. *)
Theorem audit_twice_identical h l thr opts records :
  h !! l = Some (ArrRecords records) →
  ∃ o1 h1 o2 h2,
    audit l thr opts h = Some (o1, h1) ∧ audit l thr opts h1 = Some (o2, h2) ∧
    observe h1 o1 = observe h2 o2 ∧ rawValue o1 = rawValue o2 ∧
    is_Some (topResults h1 o1) ∧
    observe h2 o1 = observe h1 o1 ∧
    (∀ r x, h !! r = Some x → h1 !! r = Some x ∧ h2 !! r = Some x) ∧
    ∃ every r1 r2,
      every ≡ₚ mkResult thr <$> filter included records ∧
      h !! r1 = None ∧ h1 !! r1 = Some (ArrResults every) ∧
      h1 !! r2 = None ∧ h2 !! r2 = Some (ArrResults every).
Proof.
  intros Hl.
  destruct (audit_run h l thr opts records Hl)
    as (tb & res & out & Htb & Hres & Hout & Htr & Hto & Hro & Hrun1).
  set (total := sumZ (transferSize <$> filter included records)) in *.
  set (every := sort byTotalBytesDesc (mkResult thr <$> filter included records)) in *.
  set (h1 := <[out := ArrResults (take 10 every)]>
               (<[res := ArrResults every]> (<[tb := Num total]> h))) in *.
  assert (∀ r x, h !! r = Some x → h1 !! r = Some x) as Hframe1
    by (intros r x Hr; by apply lookup_insert3_old).
  destruct (audit_run h1 l thr opts records (Hframe1 _ _ Hl))
    as (tb' & res' & out' & Htb' & Hres' & Hout' & Htr' & Hto' & Hro' & Hrun2).
  fold total every in Hrun2.
  set (h2 := <[out' := ArrResults (take 10 every)]>
               (<[res' := ArrResults every]> (<[tb' := Num total]> h1))) in *.
  assert (∀ r x, h1 !! r = Some x → h2 !! r = Some x) as Hframe2
    by (intros r x Hr; by apply lookup_insert3_old).
  assert (h1 !! out = Some (ArrResults (take 10 every))) as Hout1
    by apply lookup_insert_eq.
  assert (h2 !! out' = Some (ArrResults (take 10 every))) as Hout2
    by apply lookup_insert_eq.
  assert (h1 !! res = Some (ArrResults every)) as Hres1
    by (unfold h1; by rewrite lookup_insert_ne, lookup_insert_eq).
  assert (h2 !! res' = Some (ArrResults every)) as Hres2
    by (unfold h2; by rewrite lookup_insert_ne, lookup_insert_eq).
  eexists _, _, _, _. split; [exact Hrun1|]. split; [exact Hrun2|].
  split; [unfold observe, topResults; cbn; by rewrite Hout1, Hout2|].
  split; [done|].
  split; [unfold topResults; cbn; rewrite Hout1; by eexists|].
  split; [unfold observe, topResults; cbn; by rewrite (Hframe2 _ _ Hout1), Hout1|].
  split; [intros r x Hr; split; [|apply Hframe2]; by apply Hframe1|].
  exists every, res, res'. split; [apply sort_perm|]. done.
Qed.

(** C9: the default options are scorePODR = 2,560,000 and scoreMedian =
    4,096,000 bytes, and the score is the curve at whatever two values the
    caller's options hold. *)
Theorem score_curve_options h l thr options records :
  h !! l = Some (ArrRecords records) →
  scorePODR defaultOptions = 2560000 ∧ scoreMedian defaultOptions = 4096000 ∧
  ∃ o h', audit l thr options h = Some (o, h') ∧
    score o = computeLogNormalScore (rawValue o) (scorePODR options) (scoreMedian options).
Proof.
  intros Hl. split; [done|]. split; [done|].
  run_audit Hl thr options Hrun.
  eexists _, _. split; [exact Hrun|]. done.
Qed.

(** C10: [extendedInfo.value.results] is the array the table is made of:
    the first ten of the sorted results, a new array and not the one that
    holds every result, and never more than ten.  When more than ten records
    pass the filter the others are not in the result, which keeps of them
    only their share of [rawValue] and of [totalCompletedRequests]: any record
    list with the same first ten, the same sum and the same count reads off
    as the same result. *)
Theorem extendedInfo_results_truncated h l thr opts records :
  h !! l = Some (ArrRecords records) →
  let all := mkResult thr <$> filter included records in
  ∃ o h' top,
    audit l thr opts h = Some (o, h') ∧ topResults h' o = Some top ∧
    top = take 10 (sort byTotalBytesDesc all) ∧
    details o = makeTableDetails headings top ∧
    (∃ r, r ≠ results (extendedInfo o) ∧
          h' !! r = Some (ArrResults (sort byTotalBytesDesc all))) ∧
    (length top ≤ 10)%nat ∧
    ((10 < length all)%nat → (length top < length all)%nat) ∧
    rawValue o = sumZ (totalBytes <$> all) ∧
    totalCompletedRequests (extendedInfo o) = length all ∧
    ∀ g m records',
      g !! m = Some (ArrRecords records') →
      let all' := mkResult thr <$> filter included records' in
      take 10 (sort byTotalBytesDesc all') = top →
      sumZ (totalBytes <$> all') = sumZ (totalBytes <$> all) →
      length all' = length all →
      ∃ o' g', audit m thr opts g = Some (o', g') ∧ observe g' o' = observe h' o.
Proof.
  intros Hl all.
  destruct (audit_run h l thr opts records Hl)
    as (tb & res & out & _ & _ & _ & _ & _ & Hro & Hrun).
  fold all in Hrun.
  eexists _, _, _. split; [exact Hrun|].
  split; [read_top|].
  split; [done|]. split; [done|].
  split; [exists res; split; [done|]; by rewrite lookup_insert_ne, lookup_insert_eq|].
  split; [rewrite length_take; lia|].
  split; [rewrite length_take; lia|].
  split; [unfold all; by rewrite totalBytes_mkResult|].
  split; [done|].
  intros g m records' Hm all' Htop Hsum Hlen.
  run_audit Hm thr opts Hrun'.
  fold all' in Hrun'.
  eexists _, _. split; [exact Hrun'|].
  unfold all, all' in Hsum. rewrite !totalBytes_mkResult in Hsum.
  unfold observe, topResults; cbn. rewrite !lookup_insert_eq.
  by rewrite Hsum, Htop, Hlen.
Qed.
End TotalByteWeightFacts.

(** ** The transfer time of the spec *)
Section TransferTime.
Context {Score Details : Type} {util : Util}.
Variable curve : Z → Z → Z → Score.
Variable table : list Heading → list (Result Qc) → Details.

(** C7: with the transfer time of the spec, a throughput that is zero or
    unavailable raises nothing: the audit returns, and [totalMs] is the
    placeholder 0 in the result of every included record. *)
Theorem totalMs_zero_without_throughput (h : heap Qc) l thr opts records :
  h !! l = Some (ArrRecords records) →
  thr = None ∨ thr = Some 0%Qc →
  ∃ o h' every top,
    audit (base := specModelled curve table) l thr opts h = Some (o, h') ∧
    (∃ r, h' !! r = Some (ArrResults every)) ∧
    every ≡ₚ mkResult (base := specModelled curve table) thr <$> filter included records ∧
    topResults h' o = Some top ∧
    Forall (λ x, totalMs x = 0%Qc) every ∧ Forall (λ x, totalMs x = 0%Qc) top.
Proof.
  intros Hl Hthr.
  destruct (audit_run (base := specModelled curve table) h l thr opts records Hl)
    as (tb & res & out & _ & _ & _ & _ & _ & Hro & Hrun).
  set (every := sort byTotalBytesDesc
                  (mkResult (base := specModelled curve table) thr <$> filter included records))
    in *.
  assert (Forall (λ x : Result Qc, totalMs x = 0%Qc) every) as Hzero.
  { unfold every. rewrite sort_perm. apply Forall_fmap, Forall_forall.
    intros record _. cbn. by destruct Hthr as [-> | ->]. }
  eexists _, _, every, (take 10 every). split; [exact Hrun|].
  split; [exists res; by rewrite lookup_insert_ne, lookup_insert_eq|].
  split; [apply sort_perm|].
  split; [unfold topResults; cbn; by rewrite lookup_insert_eq|].
  split; [done|]. by apply Forall_take.
Qed.
End TransferTime.

(** ** The scenarios, run *)

(** Scenario 4 for C1: the fifteen records weigh 15000 bytes, five of them
    not being among the ten shown. *)
Lemma rawValue_sums_included_witness :
  storeOf scenario4 !! 1%positive = Some (ArrRecords scenario4) ∧
  ∃ o h',
    audit (base := exampleHelpers) (util := exampleUtil)
      1%positive throughput100 defaultOptions (storeOf scenario4) = Some (o, h') ∧
    rawValue o = 15000.
Proof.
  split; [reflexivity|].
  exact (rawValue_sums_included (base := exampleHelpers) (util := exampleUtil)
           (storeOf scenario4) 1%positive throughput100 defaultOptions scenario4 eq_refl).
Defined.

(** Scenarios 1 to 3 for C3: one request of the three is counted. *)
Lemma totalCompletedRequests_counts_included_witness :
  storeOf scenario123 !! 1%positive = Some (ArrRecords scenario123) ∧
  ∃ o h',
    audit (base := exampleHelpers) (util := exampleUtil)
      1%positive throughput100 defaultOptions (storeOf scenario123) = Some (o, h') ∧
    totalCompletedRequests (extendedInfo o) = 1%nat.
Proof.
  split; [reflexivity|].
  exact (totalCompletedRequests_counts_included (base := exampleHelpers) (util := exampleUtil)
           (storeOf scenario123) 1%positive throughput100 defaultOptions scenario123 eq_refl).
Defined.

(** Scenario 4 for C2: ten results, in the order the records were met. *)
Lemma topResults_sorted_stable_witness :
  storeOf scenario4 !! 1%positive = Some (ArrRecords scenario4) ∧
  ∃ o h' top,
    audit (base := exampleHelpers) (util := exampleUtil)
      1%positive throughput100 defaultOptions (storeOf scenario4) = Some (o, h') ∧
    topResults h' o = Some top ∧
    length top = 10%nat ∧
    r_url <$> top = ["r01"; "r02"; "r03"; "r04"; "r05"; "r06"; "r07"; "r08"; "r09"; "r10"].
Proof.
  split; [reflexivity|].
  destruct (topResults_sorted_stable (base := exampleHelpers) (util := exampleUtil)
              (storeOf scenario4) 1%positive throughput100 defaultOptions scenario4 eq_refl)
    as (o & h' & top & rest & Hrun & Htop & _ & _ & _ & _ & _ & Hsame).
  exists o, h', top. split; [exact Hrun|]. split; [exact Htop|].
  rewrite Hsame; [split; reflexivity|].
  assert (Forall (λ x : Result Qc, totalBytes x = 1000)
            (mkResult (base := exampleHelpers) throughput100 <$> filter included scenario4))
    as Hall by (vm_compute; repeat constructor).
  rewrite Forall_forall in Hall.
  intros x y Hx Hy. by rewrite (Hall x Hx), (Hall y Hy).
Defined.

(** Scenario 1 for C4: the script of 200000 bytes is flagged. *)
Lemma flagged_iff_oversized_script_witness :
  storeOf scenario123 !! 1%positive = Some (ArrRecords scenario123) ∧
  ∃ o h' top,
    audit (base := exampleHelpers) (util := exampleUtil)
      1%positive throughput100 defaultOptions (storeOf scenario123) = Some (o, h') ∧
    topResults h' o = Some top ∧
    flagged <$> top = [true].
Proof.
  split; [reflexivity|].
  destruct (flagged_iff_oversized_script (base := exampleHelpers) (util := exampleUtil)
              (storeOf scenario123) 1%positive throughput100 defaultOptions scenario123 eq_refl)
    as (o & h' & every & top & Hrun & _ & _ & Htop & _ & _).
  exists o, h', top. split; [exact Hrun|]. split; [exact Htop|].
  pose proof Hrun as Hrun'. vm_compute in Hrun'. injection Hrun' as <- <-.
  vm_compute in Htop. by injection Htop as <-.
Defined.

(** Scenarios 1 to 3 for C6, with a throughput and with none. *)
Lemma throughput_noninterference_witness :
  storeOf scenario123 !! 1%positive = Some (ArrRecords scenario123) ∧
  ∃ o1 h1 o2 h2,
    audit (base := exampleHelpers) (util := exampleUtil)
      1%positive throughput100 defaultOptions (storeOf scenario123) = Some (o1, h1) ∧
    audit (base := exampleHelpers) (util := exampleUtil)
      1%positive None defaultOptions (storeOf scenario123) = Some (o2, h2) ∧
    score o1 = score o2 ∧ rawValue o1 = rawValue o2.
Proof.
  split; [reflexivity|].
  destruct (throughput_noninterference (base := exampleHelpers) (util := exampleUtil)
              (storeOf scenario123) 1%positive throughput100 None defaultOptions
              scenario123 eq_refl)
    as (o1 & h1 & o2 & h2 & _ & _ & Hrun1 & Hrun2 & Hscore & Hraw & _).
  exists o1, h1, o2, h2. by repeat split.
Defined.

(** Scenarios 1 to 3 for C7, with no throughput. *)
Lemma totalMs_zero_without_throughput_witness :
  storeOf scenario123 !! 1%positive = Some (ArrRecords scenario123) ∧
  ((None : option Qc) = None ∨ (None : option Qc) = Some 0%Qc) ∧
  ∃ o h' top,
    audit (base := exampleHelpers) (util := exampleUtil)
      1%positive None defaultOptions (storeOf scenario123) = Some (o, h') ∧
    topResults h' o = Some top ∧
    Forall (λ x, totalMs x = 0%Qc) top.
Proof.
  split; [reflexivity|]. split; [left; reflexivity|].
  destruct (totalMs_zero_without_throughput (util := exampleUtil)
              (λ value podr median, (value, podr, median)) (λ hs rs, (hs, rs))
              (storeOf scenario123) 1%positive None defaultOptions scenario123
              eq_refl (or_introl eq_refl))
    as (o & h' & every & top & Hrun & _ & _ & Htop & _ & Hzero).
  exists o, h', top. by repeat split.
Defined.

(** Scenarios 1 to 3 for C8, run twice. *)
Lemma audit_twice_identical_witness :
  storeOf scenario123 !! 1%positive = Some (ArrRecords scenario123) ∧
  ∃ o1 h1 o2 h2,
    audit (base := exampleHelpers) (util := exampleUtil)
      1%positive throughput100 defaultOptions (storeOf scenario123) = Some (o1, h1) ∧
    audit (base := exampleHelpers) (util := exampleUtil)
      1%positive throughput100 defaultOptions h1 = Some (o2, h2) ∧
    observe h1 o1 = observe h2 o2 ∧
    h2 !! 1%positive = Some (ArrRecords scenario123).
Proof.
  split; [reflexivity|].
  destruct (audit_twice_identical (base := exampleHelpers) (util := exampleUtil)
              (storeOf scenario123) 1%positive throughput100 defaultOptions
              scenario123 eq_refl)
    as (o1 & h1 & o2 & h2 & Hrun1 & Hrun2 & Hobs & _ & _ & _ & Hframe & _).
  exists o1, h1, o2, h2. repeat split; [done..|].
  by apply (Hframe 1%positive).
Defined.

(** Scenarios 1 to 3 for C9, with options of the caller's in place of the
    defaults. *)
Lemma score_curve_options_witness :
  storeOf scenario123 !! 1%positive = Some (ArrRecords scenario123) ∧
  ∃ o h',
    audit (base := exampleHelpers) (util := exampleUtil) 1%positive throughput100
      {| scorePODR := 1000; scoreMedian := 2000 |} (storeOf scenario123) = Some (o, h') ∧
    score o = (rawValue o, 1000, 2000).
Proof.
  split; [reflexivity|].
  exact (proj2 (proj2
    (score_curve_options (base := exampleHelpers) (util := exampleUtil)
       (storeOf scenario123) 1%positive throughput100
       {| scorePODR := 1000; scoreMedian := 2000 |} scenario123 eq_refl))).
Defined.

(** Scenario 4 for C10: ten results of the fifteen are in the result. *)
Lemma extendedInfo_results_truncated_witness :
  storeOf scenario4 !! 1%positive = Some (ArrRecords scenario4) ∧
  ∃ o h' top,
    audit (base := exampleHelpers) (util := exampleUtil)
      1%positive throughput100 defaultOptions (storeOf scenario4) = Some (o, h') ∧
    topResults h' o = Some top ∧
    length top = 10%nat ∧
    totalCompletedRequests (extendedInfo o) = 15%nat ∧
    rawValue o = 15000.
Proof.
  split; [reflexivity|].
  destruct (extendedInfo_results_truncated (base := exampleHelpers) (util := exampleUtil)
              (storeOf scenario4) 1%positive throughput100 defaultOptions scenario4 eq_refl)
    as (o & h' & top & Hrun & Htop & Heq & _ & _ & _ & _ & Hraw & Hcount & _).
  exists o, h', top. split; [exact Hrun|]. split; [exact Htop|].
  split; [by rewrite Heq|]. split; [exact Hcount|exact Hraw].
Defined.

(** * Further properties of the audit *)

(** ** Sums and sorted sizes *)

Lemma sumZ_cons x (l : list Z) : sumZ (x :: l) = x + sumZ l.
Proof. done. Qed.

Lemma sumZ_app (l1 l2 : list Z) : sumZ (l1 ++ l2) = sumZ l1 + sumZ l2.
Proof.
  induction l1 as [|x l1 IH]; [done|].
  rewrite <- app_comm_cons, !sumZ_cons, IH. lia.
Qed.

Lemma sumZ_perm (l1 l2 : list Z) : l1 ≡ₚ l2 → sumZ l1 = sumZ l2.
Proof.
  induction 1 as [|x l1' l2' _ IH|x y l'|l1' l2' l3' _ IH1 _ IH2]; [done| | |congruence].
  - by rewrite !sumZ_cons, IH.
  - rewrite !sumZ_cons. lia.
Qed.

Lemma sumZ_nonneg (l : list Z) : Forall (λ x, 0 ≤ x) l → 0 ≤ sumZ l.
Proof. induction 1 as [|x l Hx _ IH]; [done|]. rewrite sumZ_cons. lia. Qed.

Lemma sumZ_elem_le (l : list Z) x : Forall (λ y, 0 ≤ y) l → x ∈ l → x ≤ sumZ l.
Proof.
  induction 1 as [|y l Hy Hl IH]; intros Hx; [by apply elem_of_nil in Hx|].
  pose proof (sumZ_nonneg l Hl). rewrite sumZ_cons.
  apply elem_of_cons in Hx as [->|Hx]; [lia|]. specialize (IH Hx). lia.
Qed.

(** Sorting numbers in descending order forgets the order they came in. *)
Lemma sort_desc_perm (l1 l2 : list Z) :
  l1 ≡ₚ l2 → sort (λ a b, b - a) l1 = sort (λ a b, b - a) l2.
Proof.
  intros Hp.
  assert (∀ l, StronglySorted (λ a b : Z, b ≤ a) (sort (λ a b, b - a) l)) as Hs.
  { intros l. eapply StronglySorted_weaken; [|apply sort_sorted].
    - intros a b ?. cbv beta in *. lia.
    - intros; lia.
    - intros; lia. }
  assert (AntiSymm (=) (λ a b : Z, b ≤ a)) by (intros a b ??; lia).
  eapply (StronglySorted_unique (λ a b : Z, b ≤ a)); [apply Hs..|].
  by rewrite !sort_perm.
Qed.

Section TotalByteWeightMore.
Context {Throughput Ms Score Details : Type}.
Context {base : ByteEfficiencyAudit Throughput Ms Score Details} {util : Util}.
Implicit Types (h g : gmap loc (object Ms)) (l m : loc) (records : list NetworkRequest).

(** The sizes of the sorted results are the sorted sizes of the records. *)
Lemma totalBytes_sort thr records :
  totalBytes <$> sort byTotalBytesDesc (mkResult thr <$> records) =
  sort (λ a b, b - a) (transferSize <$> records).
Proof.
  rewrite <- (sort_fmap byTotalBytesDesc (λ a b, b - a) totalBytes) by done.
  by rewrite totalBytes_mkResult.
Qed.

(** X1: the order in which the records are listed does not matter to the
    totals: for two lists with the same records in any order, [rawValue],
    [score], [displayValue] and [totalCompletedRequests] are the same, and so
    are the sizes shown in [topResults], entry by entry. *)
Theorem audit_permutation_invariant h l g m thr opts records records' :
  h !! l = Some (ArrRecords records) →
  g !! m = Some (ArrRecords records') →
  records ≡ₚ records' →
  ∃ o h' o' g' top top',
    audit l thr opts h = Some (o, h') ∧ audit m thr opts g = Some (o', g') ∧
    rawValue o = rawValue o' ∧ score o = score o' ∧
    displayValue o = displayValue o' ∧
    totalCompletedRequests (extendedInfo o) = totalCompletedRequests (extendedInfo o') ∧
    topResults h' o = Some top ∧ topResults g' o' = Some top' ∧
    totalBytes <$> top = totalBytes <$> top'.
Proof.
  intros Hl Hm Hp.
  destruct (audit_run h l thr opts records Hl)
    as (tb & res & out & _ & _ & _ & _ & _ & _ & Hrun).
  destruct (audit_run g m thr opts records' Hm)
    as (tb' & res' & out' & _ & _ & _ & _ & _ & _ & Hrun').
  assert (filter included records ≡ₚ filter included records') as Hf by by rewrite Hp.
  assert (sumZ (transferSize <$> filter included records) =
          sumZ (transferSize <$> filter included records')) as Hsum
    by (apply sumZ_perm; by rewrite Hf).
  eexists _, _, _, _, _, _. split; [exact Hrun|]. split; [exact Hrun'|].
  cbn [rawValue score displayValue extendedInfo totalCompletedRequests].
  rewrite Hsum, !length_fmap, (Permutation_length Hf).
  repeat (split; [done|]).
  split; [unfold topResults; cbn; by rewrite lookup_insert_eq|].
  split; [unfold topResults; cbn; by rewrite lookup_insert_eq|].
  rewrite !fmap_take, !totalBytes_sort. f_equal.
  apply sort_desc_perm. by rewrite Hf.
Qed.

(** X2: records that line 73 skips never matter: two record lists that
    agree once data URIs and unfinished requests are left out, in whatever
    stores and at whatever references, read off as the same result. *)
Theorem audit_ignores_excluded h l g m thr opts records records' :
  h !! l = Some (ArrRecords records) →
  g !! m = Some (ArrRecords records') →
  filter included records = filter included records' →
  ∃ o h' o' g',
    audit l thr opts h = Some (o, h') ∧ audit m thr opts g = Some (o', g') ∧
    observe h' o = observe g' o'.
Proof.
  intros Hl Hm Hf.
  destruct (audit_run h l thr opts records Hl)
    as (tb & res & out & _ & _ & _ & _ & _ & _ & Hrun).
  destruct (audit_run g m thr opts records' Hm)
    as (tb' & res' & out' & _ & _ & _ & _ & _ & _ & Hrun').
  eexists _, _, _, _. split; [exact Hrun|]. split; [exact Hrun'|].
  unfold observe, topResults; cbn. rewrite !lookup_insert_eq. by rewrite Hf.
Qed.

(** X3: the totals of a list made of two parts are the sums of the parts'
    totals: [rawValue] and [totalCompletedRequests] of [records ++ records']
    are those of [records] plus those of [records']. *)
Theorem audit_app_additive h l g m k n thr opts records records' :
  h !! l = Some (ArrRecords records) →
  g !! m = Some (ArrRecords records') →
  k !! n = Some (ArrRecords (records ++ records')) →
  ∃ o h' o' g' o'' k',
    audit l thr opts h = Some (o, h') ∧ audit m thr opts g = Some (o', g') ∧
    audit n thr opts k = Some (o'', k') ∧
    rawValue o'' = rawValue o + rawValue o' ∧
    totalCompletedRequests (extendedInfo o'') =
      (totalCompletedRequests (extendedInfo o) + totalCompletedRequests (extendedInfo o'))%nat.
Proof.
  intros Hl Hm Hn.
  destruct (audit_run h l thr opts records Hl)
    as (tb & res & out & _ & _ & _ & _ & _ & _ & Hrun).
  destruct (audit_run g m thr opts records' Hm)
    as (tb' & res' & out' & _ & _ & _ & _ & _ & _ & Hrun').
  destruct (audit_run k n thr opts _ Hn)
    as (tb'' & res'' & out'' & _ & _ & _ & _ & _ & _ & Hrun'').
  eexists _, _, _, _, _, _.
  split; [exact Hrun|]. split; [exact Hrun'|]. split; [exact Hrun''|].
  cbn [rawValue extendedInfo totalCompletedRequests].
  rewrite filter_app, !fmap_app, sumZ_app, !length_app. done.
Qed.

(** The sizes of the included records, as the results hold them. *)
Lemma sizes_nonneg thr records :
  (∀ r, r ∈ records → included r → 0 ≤ transferSize r) →
  Forall (λ x, 0 ≤ x) (totalBytes <$> sort byTotalBytesDesc (mkResult thr <$> filter included records)).
Proof.
  intros Hpos. rewrite sort_perm, totalBytes_mkResult.
  apply Forall_fmap, Forall_forall. intros r Hr.
  apply list_elem_of_filter in Hr as [Hin Hr]. by apply Hpos.
Qed.

(** The first ten of the sorted results against the sum of all sizes. *)
Lemma shown_sizes_bounded thr records :
  (∀ r, r ∈ records → included r → 0 ≤ transferSize r) →
  let top := take 10 (sort byTotalBytesDesc (mkResult thr <$> filter included records)) in
  let total := sumZ (transferSize <$> filter included records) in
  0 ≤ total ∧ sumZ (totalBytes <$> top) ≤ total ∧
  ∀ x, x ∈ top → 0 ≤ totalBytes x ≤ total.
Proof.
  intros Hpos. cbv zeta.
  pose proof (sizes_nonneg thr records Hpos) as Hnn.
  set (s := sort byTotalBytesDesc (mkResult thr <$> filter included records)) in *.
  assert (sumZ (transferSize <$> filter included records) = sumZ (totalBytes <$> s)) as Hsum.
  { unfold s. symmetry. rewrite <- (totalBytes_mkResult thr).
    apply sumZ_perm. by rewrite sort_perm. }
  assert (sumZ (totalBytes <$> s) =
          sumZ (totalBytes <$> take 10 s) + sumZ (totalBytes <$> drop 10 s)) as Hsplit
    by (rewrite <- sumZ_app, <- fmap_app; by rewrite take_drop).
  assert (Forall (λ x, 0 ≤ x) (totalBytes <$> take 10 s)) as Htake
    by (rewrite fmap_take; by apply Forall_take).
  assert (Forall (λ x, 0 ≤ x) (totalBytes <$> drop 10 s)) as Hdrop
    by (rewrite fmap_drop; by apply Forall_drop).
  pose proof (sumZ_nonneg _ Htake). pose proof (sumZ_nonneg _ Hdrop).
  rewrite Hsum, Hsplit.
  split; [lia|]. split; [lia|].
  intros x Hx.
  assert (totalBytes x ∈ totalBytes <$> take 10 s) as Hin
    by (apply list_elem_of_fmap; eauto).
  pose proof (sumZ_elem_le _ _ Htake Hin).
  rewrite Forall_forall in Htake. specialize (Htake _ Hin). lia.
Qed.

(** X4: when no included record has a negative size, [rawValue] is not
    negative, no size shown in [topResults] is above it, and the sizes shown
    add up to at most [rawValue]. *)
Theorem rawValue_bounds_shown h l thr opts records :
  h !! l = Some (ArrRecords records) →
  (∀ r, r ∈ records → included r → 0 ≤ transferSize r) →
  ∃ o h' top,
    audit l thr opts h = Some (o, h') ∧ topResults h' o = Some top ∧
    0 ≤ rawValue o ∧
    sumZ (totalBytes <$> top) ≤ rawValue o ∧
    ∀ x, x ∈ top → 0 ≤ totalBytes x ≤ rawValue o.
Proof.
  intros Hl Hpos.
  destruct (audit_run h l thr opts records Hl)
    as (tb & res & out & _ & _ & _ & _ & _ & _ & Hrun).
  eexists _, _, _. split; [exact Hrun|].
  split; [unfold topResults; cbn; by rewrite lookup_insert_eq|].
  by apply shown_sizes_bounded.
Qed.

(** X5: when at most ten records pass the filter nothing is cut off:
    [topResults] holds the result of every included record, as many as
    [totalCompletedRequests] counts, and the sizes shown add up to
    [rawValue]. *)
Theorem few_records_all_shown h l thr opts records :
  h !! l = Some (ArrRecords records) →
  (length (filter included records) ≤ 10)%nat →
  ∃ o h' top,
    audit l thr opts h = Some (o, h') ∧ topResults h' o = Some top ∧
    top ≡ₚ mkResult thr <$> filter included records ∧
    length top = totalCompletedRequests (extendedInfo o) ∧
    sumZ (totalBytes <$> top) = rawValue o.
Proof.
  intros Hl Hfew.
  destruct (audit_run h l thr opts records Hl)
    as (tb & res & out & _ & _ & _ & _ & _ & _ & Hrun).
  eexists _, _, _. split; [exact Hrun|].
  split; [unfold topResults; cbn; by rewrite lookup_insert_eq|].
  cbn [rawValue extendedInfo totalCompletedRequests].
  rewrite take_ge by (rewrite sort_length, length_fmap; lia).
  split; [apply sort_perm|].
  split; [by rewrite sort_length|].
  rewrite <- (totalBytes_mkResult thr). apply sumZ_perm. by rewrite sort_perm.
Qed.

(** X6: the first entry of [topResults] is a largest request: no included
    record is larger; and [topResults] is empty only when no record passes
    the filter. *)
Theorem first_result_is_largest h l thr opts records :
  h !! l = Some (ArrRecords records) →
  ∃ o h' top,
    audit l thr opts h = Some (o, h') ∧ topResults h' o = Some top ∧
    (top = [] ↔ filter included records = []) ∧
    ∀ x rest, top = x :: rest →
      (∃ r, r ∈ records ∧ included r ∧ x = mkResult thr r) ∧
      ∀ r, r ∈ records → included r → transferSize r ≤ totalBytes x.
Proof.
  intros Hl.
  destruct (audit_run h l thr opts records Hl)
    as (tb & res & out & _ & _ & _ & _ & _ & _ & Hrun).
  set (all := mkResult thr <$> filter included records) in *.
  set (s := sort byTotalBytesDesc all) in *.
  eexists _, _, _. split; [exact Hrun|].
  split; [unfold topResults; cbn; by rewrite lookup_insert_eq|].
  assert (length s = length (filter included records)) as Hlen
    by (unfold s, all; by rewrite sort_length, length_fmap).
  split.
  - split; intros E.
    + apply nil_length_inv. apply (f_equal length) in E.
      rewrite length_take in E. simpl (length []) in E. lia.
    + apply nil_length_inv. rewrite length_take, Hlen, E. done.
  - intros x rest Htop.
    assert (∃ tl, s = x :: tl) as [tl Hs].
    { destruct s as [|y tl]; [done|]. cbn in Htop. injection Htop as -> _. eauto. }
    pose proof (sort_byTotalBytesDesc all) as Hsorted. fold s in Hsorted.
    rewrite Hs in Hsorted. apply StronglySorted_inv in Hsorted as [_ Hhd].
    assert (∀ y, y ∈ all → totalBytes y ≤ totalBytes x) as Hmax.
    { intros y Hy. assert (y ∈ s) as Hys by (unfold s; by rewrite sort_perm).
      rewrite Hs in Hys. apply elem_of_cons in Hys as [->|Hys]; [done|].
      rewrite Forall_forall in Hhd. by apply Hhd. }
    split.
    + assert (x ∈ all) as Hx.
      { rewrite <- (sort_perm byTotalBytesDesc all). fold s. rewrite Hs. left. }
      apply list_elem_of_fmap in Hx as (r & -> & Hr).
      apply list_elem_of_filter in Hr as [Hin Hr]. eauto.
    + intros r Hr Hin.
      apply (Hmax (mkResult thr r)). apply list_elem_of_fmap.
      exists r. split; [done|]. by apply list_elem_of_filter.
Qed.

(** X7: when no record passes the filter (an empty list, or data URIs and
    unfinished requests only) the audit still returns: [rawValue] is 0, the
    count is 0, [topResults] is an empty array, and the score is the curve
    at 0. *)
Theorem nothing_included_empty_result h l thr opts records :
  h !! l = Some (ArrRecords records) →
  (∀ r, r ∈ records → ¬ included r) →
  ∃ o h',
    audit l thr opts h = Some (o, h') ∧
    observe h' o =
      (computeLogNormalScore 0 (scorePODR opts) (scoreMedian opts), 0,
       "Total size was " +:+ formatBytesToKB 0 1, Some [], 0%nat,
       makeTableDetails headings []).
Proof.
  intros Hl Hnone.
  destruct (audit_run h l thr opts records Hl)
    as (tb & res & out & _ & _ & _ & _ & _ & _ & Hrun).
  assert (filter included records = []) as Hf.
  { apply elem_of_nil_inv. intros r Hr.
    apply list_elem_of_filter in Hr as [Hin Hr]. by apply (Hnone r). }
  rewrite Hf in Hrun.
  eexists _, _. split; [exact Hrun|].
  unfold observe, topResults; cbn. by rewrite lookup_insert_eq.
Qed.

(** X8: a flag means a heavy page: when no included record has a negative
    size, every flagged entry of [topResults] is larger than 174,080 bytes
    and so is [rawValue]; a page of at most 174,080 bytes has no flagged
    entry. *)
Theorem flagged_entry_heavy_page h l thr opts records :
  h !! l = Some (ArrRecords records) →
  (∀ r, r ∈ records → included r → 0 ≤ transferSize r) →
  ∃ o h' top,
    audit l thr opts h = Some (o, h') ∧ topResults h' o = Some top ∧
    (∀ x, x ∈ top → flagged x = true → 174080 < totalBytes x ∧ 174080 < rawValue o) ∧
    (rawValue o ≤ 174080 → Forall (λ x, flagged x = false) top).
Proof.
  intros Hl Hpos.
  destruct (audit_run h l thr opts records Hl)
    as (tb & res & out & _ & _ & _ & _ & _ & _ & Hrun).
  destruct (shown_sizes_bounded thr records Hpos) as (_ & _ & Hle).
  set (top := take 10 (sort byTotalBytesDesc (mkResult thr <$> filter included records))) in *.
  assert (∀ x, x ∈ top → flagged x = true → 174080 < totalBytes x) as Hflag.
  { intros x Hx Hfl. apply subseteq_take in Hx. rewrite sort_perm in Hx.
    apply list_elem_of_fmap in Hx as (r & -> & _).
    cbn in *. by apply hasExceededJSBundleSize_iff in Hfl as [_ ?]. }
  eexists _, _, top. split; [exact Hrun|].
  split; [unfold topResults; cbn; by rewrite lookup_insert_eq|].
  cbn [rawValue]. split.
  - intros x Hx Hfl. specialize (Hflag x Hx Hfl). specialize (Hle x Hx). lia.
  - intros Hsmall. apply Forall_forall. intros x Hx.
    apply not_true_is_false. intros Hfl.
    specialize (Hflag x Hx Hfl). specialize (Hle x Hx). lia.
Qed.

(** X9: [topResults] is fixed by the included records alone: whatever list
    of their results is in descending order of size and keeps the results of
    one size in the order the records were met, its first ten entries are
    [topResults]. *)
Theorem topResults_characterised h l thr opts records :
  h !! l = Some (ArrRecords records) →
  ∃ o h' top,
    audit l thr opts h = Some (o, h') ∧ topResults h' o = Some top ∧
    ∀ s,
      StronglySorted (λ x y, totalBytes y ≤ totalBytes x) s →
      (∀ k, filter (λ x, totalBytes x = k) s =
            filter (λ x, totalBytes x = k) (mkResult thr <$> filter included records)) →
      top = take 10 s.
Proof.
  intros Hl.
  destruct (audit_run h l thr opts records Hl)
    as (tb & res & out & _ & _ & _ & _ & _ & _ & Hrun).
  eexists _, _, _. split; [exact Hrun|].
  split; [unfold topResults; cbn; by rewrite lookup_insert_eq|].
  intros s Hs Hcls. f_equal. symmetry.
  apply (stable_sort_unique totalBytes _ s Hs Hcls).
Qed.

(** X10: one call of the callback of lines 70-84 keeps the running total in
    step with the array: if [totalBytes] is the sum of the sizes collected so
    far it still is afterwards; the array only grows, by at most one result
    at its end, and nothing else in the store changes. *)
Theorem collect_keeps_total g tb res thr record t a :
  g !! tb = Some (Num t) →
  g !! res = Some (ArrResults a) →
  t = sumZ (totalBytes <$> a) →
  ∃ g' t' a',
    collect tb res thr record g = Some ((), g') ∧
    g' !! tb = Some (Num t') ∧ g' !! res = Some (ArrResults a') ∧
    t' = sumZ (totalBytes <$> a') ∧
    a `prefix_of` a' ∧ (length a' ≤ S (length a))%nat ∧
    ∀ r, r ≠ tb → r ≠ res → g' !! r = g !! r.
Proof.
  intros Htb Hres Ht.
  assert (tb ≠ res) as Hne by congruence.
  unfold collect.
  destruct (String.eqb (scheme record) "data" || negb (finished record)).
  - exists g, t, a. do 4 (split; [done|]). split; [done|]. split; [lia|done].
  - unfold bind, readNum, writeNum, push. rewrite Htb, Htb.
    rewrite lookup_insert_ne, Hres by done.
    eexists _, _, _. split; [done|].
    split; [by rewrite lookup_insert_ne, lookup_insert_eq|].
    split; [by rewrite lookup_insert_eq|].
    split; [rewrite fmap_app, sumZ_app; subst t; f_equal; cbn; lia|].
    split; [by apply prefix_app_r|].
    split; [rewrite length_app; cbn; lia|].
    intros r Hr1 Hr2. by rewrite !lookup_insert_ne.
Qed.

(** X11: the score and the summary line depend on the records through
    [rawValue] only: two runs with the same options whose [rawValue] is the
    same, whatever the records and the throughput, have the same [score] and
    the same [displayValue]. *)
Theorem score_depends_on_rawValue h l g m thr thr' opts records records' :
  h !! l = Some (ArrRecords records) →
  g !! m = Some (ArrRecords records') →
  ∃ o h' o' g',
    audit l thr opts h = Some (o, h') ∧ audit m thr' opts g = Some (o', g') ∧
    (rawValue o = rawValue o' →
     score o = score o' ∧ displayValue o = displayValue o').
Proof.
  intros Hl Hm.
  destruct (audit_run h l thr opts records Hl)
    as (tb & res & out & _ & _ & _ & _ & _ & _ & Hrun).
  destruct (audit_run g m thr' opts records' Hm)
    as (tb' & res' & out' & _ & _ & _ & _ & _ & _ & Hrun').
  eexists _, _, _, _. split; [exact Hrun|]. split; [exact Hrun'|].
  cbn [rawValue score displayValue]. by intros ->.
Qed.
End TotalByteWeightMore.

(** ** More runs of the scenarios *)

(** The records of [l] are not negative in size. *)
Lemma sizes_nonneg_dec (l : list NetworkRequest) :
  forallb (λ r, 0 <=? transferSize r) l = true →
  ∀ r, r ∈ l → included r → 0 ≤ transferSize r.
Proof.
  intros Hall r Hr _. rewrite forallb_forall in Hall.
  apply Z.leb_le, Hall. by apply list_elem_of_In.
Qed.

(** Scenarios 1 to 3 for X1, listed forwards and backwards. *)
Lemma audit_permutation_invariant_witness :
  storeOf scenario123 !! 1%positive = Some (ArrRecords scenario123) ∧
  storeOf (reverse scenario123) !! 1%positive = Some (ArrRecords (reverse scenario123)) ∧
  scenario123 ≡ₚ reverse scenario123 ∧
  ∃ o h' o' g',
    audit (base := exampleHelpers) (util := exampleUtil)
      1%positive throughput100 defaultOptions (storeOf scenario123) = Some (o, h') ∧
    audit (base := exampleHelpers) (util := exampleUtil)
      1%positive throughput100 defaultOptions (storeOf (reverse scenario123)) = Some (o', g') ∧
    rawValue o = rawValue o' ∧ score o = score o'.
Proof.
  split; [reflexivity|]. split; [reflexivity|].
  split; [symmetry; apply reverse_Permutation|].
  destruct (audit_permutation_invariant (base := exampleHelpers) (util := exampleUtil)
              (storeOf scenario123) 1%positive (storeOf (reverse scenario123)) 1%positive
              throughput100 defaultOptions scenario123 (reverse scenario123)
              eq_refl eq_refl (symmetry (reverse_Permutation scenario123)))
    as (o & h' & o' & g' & _ & _ & Hrun & Hrun' & Hraw & Hscore & _).
  exists o, h', o', g'. by repeat split.
Defined.

(** Scenarios 1 to 3 for X2, with and without the two records that are
    skipped. *)
Lemma audit_ignores_excluded_witness :
  storeOf scenario123 !! 1%positive = Some (ArrRecords scenario123) ∧
  storeOf (take 1 scenario123) !! 1%positive = Some (ArrRecords (take 1 scenario123)) ∧
  filter included scenario123 = filter included (take 1 scenario123) ∧
  ∃ o h' o' g',
    audit (base := exampleHelpers) (util := exampleUtil)
      1%positive throughput100 defaultOptions (storeOf scenario123) = Some (o, h') ∧
    audit (base := exampleHelpers) (util := exampleUtil)
      1%positive throughput100 defaultOptions (storeOf (take 1 scenario123)) = Some (o', g') ∧
    observe h' o = observe g' o'.
Proof.
  split; [reflexivity|]. split; [reflexivity|]. split; [reflexivity|].
  exact (audit_ignores_excluded (base := exampleHelpers) (util := exampleUtil)
           (storeOf scenario123) 1%positive (storeOf (take 1 scenario123)) 1%positive
           throughput100 defaultOptions scenario123 (take 1 scenario123)
           eq_refl eq_refl eq_refl).
Defined.

(** Scenarios 1 to 3 followed by scenario 4 for X3: 200000 + 15000 bytes,
    1 + 15 requests. *)
Lemma audit_app_additive_witness :
  storeOf scenario123 !! 1%positive = Some (ArrRecords scenario123) ∧
  storeOf scenario4 !! 1%positive = Some (ArrRecords scenario4) ∧
  storeOf (scenario123 ++ scenario4) !! 1%positive =
    Some (ArrRecords (scenario123 ++ scenario4)) ∧
  ∃ o k',
    audit (base := exampleHelpers) (util := exampleUtil) 1%positive throughput100
      defaultOptions (storeOf (scenario123 ++ scenario4)) = Some (o, k') ∧
    rawValue o = 215000 ∧ totalCompletedRequests (extendedInfo o) = 16%nat.
Proof.
  split; [reflexivity|]. split; [reflexivity|]. split; [reflexivity|].
  destruct (audit_app_additive (base := exampleHelpers) (util := exampleUtil)
              (storeOf scenario123) 1%positive (storeOf scenario4) 1%positive
              (storeOf (scenario123 ++ scenario4)) 1%positive
              throughput100 defaultOptions scenario123 scenario4 eq_refl eq_refl eq_refl)
    as (o1 & h1 & o2 & h2 & o & k' & Hrun1 & Hrun2 & Hrun & Hraw & Hcount).
  exists o, k'. split; [exact Hrun|].
  vm_compute in Hrun1. injection Hrun1 as <- <-.
  vm_compute in Hrun2. injection Hrun2 as <- <-.
  split; [exact Hraw|exact Hcount].
Defined.

(** Scenario 4 for X4: ten sizes of 1000 are shown, of 15000 bytes in all. *)
Lemma rawValue_bounds_shown_witness :
  storeOf scenario4 !! 1%positive = Some (ArrRecords scenario4) ∧
  (∀ r, r ∈ scenario4 → included r → 0 ≤ transferSize r) ∧
  ∃ o h' top,
    audit (base := exampleHelpers) (util := exampleUtil)
      1%positive throughput100 defaultOptions (storeOf scenario4) = Some (o, h') ∧
    topResults h' o = Some top ∧
    sumZ (totalBytes <$> top) ≤ rawValue o.
Proof.
  split; [reflexivity|]. split; [apply sizes_nonneg_dec; reflexivity|].
  destruct (rawValue_bounds_shown (base := exampleHelpers) (util := exampleUtil)
              (storeOf scenario4) 1%positive throughput100 defaultOptions scenario4
              eq_refl (sizes_nonneg_dec scenario4 eq_refl))
    as (o & h' & top & Hrun & Htop & _ & Hsum & _).
  by exists o, h', top.
Defined.

(** Scenarios 1 to 3 for X5: the one included record is shown. *)
Lemma few_records_all_shown_witness :
  storeOf scenario123 !! 1%positive = Some (ArrRecords scenario123) ∧
  (length (filter included scenario123) ≤ 10)%nat ∧
  ∃ o h' top,
    audit (base := exampleHelpers) (util := exampleUtil)
      1%positive throughput100 defaultOptions (storeOf scenario123) = Some (o, h') ∧
    topResults h' o = Some top ∧
    sumZ (totalBytes <$> top) = rawValue o.
Proof.
  assert (length (filter included scenario123) ≤ 10)%nat as Hfew by (vm_compute; lia).
  split; [reflexivity|]. split; [exact Hfew|].
  destruct (few_records_all_shown (base := exampleHelpers) (util := exampleUtil)
              (storeOf scenario123) 1%positive throughput100 defaultOptions scenario123
              eq_refl Hfew)
    as (o & h' & top & Hrun & Htop & _ & _ & Hsum).
  by exists o, h', top.
Defined.

(** Scenarios 1 to 3 for X6: the list of results is not empty. *)
Lemma first_result_is_largest_witness :
  storeOf scenario123 !! 1%positive = Some (ArrRecords scenario123) ∧
  ∃ o h' top,
    audit (base := exampleHelpers) (util := exampleUtil)
      1%positive throughput100 defaultOptions (storeOf scenario123) = Some (o, h') ∧
    topResults h' o = Some top ∧ top ≠ [].
Proof.
  split; [reflexivity|].
  destruct (first_result_is_largest (base := exampleHelpers) (util := exampleUtil)
              (storeOf scenario123) 1%positive throughput100 defaultOptions scenario123
              eq_refl)
    as (o & h' & top & Hrun & Htop & Hnil & _).
  exists o, h', top. split; [exact Hrun|]. split; [exact Htop|].
  intros E. apply Hnil in E. vm_compute in E. discriminate E.
Defined.

(** The data URI and the unfinished request of scenarios 2 and 3 for X7. *)
Lemma nothing_included_empty_result_witness :
  storeOf (drop 1 scenario123) !! 1%positive = Some (ArrRecords (drop 1 scenario123)) ∧
  (∀ r, r ∈ drop 1 scenario123 → ¬ included r) ∧
  ∃ o h',
    audit (base := exampleHelpers) (util := exampleUtil) 1%positive throughput100
      defaultOptions (storeOf (drop 1 scenario123)) = Some (o, h') ∧
    rawValue o = 0 ∧ topResults h' o = Some [].
Proof.
  assert (∀ r, r ∈ drop 1 scenario123 → ¬ included r) as Hnone.
  { apply Forall_forall. vm_compute. repeat constructor; intros [? ?]; congruence. }
  split; [reflexivity|]. split; [exact Hnone|].
  destruct (nothing_included_empty_result (base := exampleHelpers) (util := exampleUtil)
              (storeOf (drop 1 scenario123)) 1%positive throughput100 defaultOptions
              (drop 1 scenario123) eq_refl Hnone)
    as (o & h' & Hrun & Hobs).
  exists o, h'. split; [exact Hrun|].
  unfold observe in Hobs. injection Hobs as _ Hraw _ Htop _ _. by split.
Defined.

(** Scenarios 1 to 3 for X8: the script of 200000 bytes is flagged, on a
    page of 200000 bytes. *)
Lemma flagged_entry_heavy_page_witness :
  storeOf scenario123 !! 1%positive = Some (ArrRecords scenario123) ∧
  (∀ r, r ∈ scenario123 → included r → 0 ≤ transferSize r) ∧
  ∃ o h' top,
    audit (base := exampleHelpers) (util := exampleUtil)
      1%positive throughput100 defaultOptions (storeOf scenario123) = Some (o, h') ∧
    topResults h' o = Some top ∧
    ∀ x, x ∈ top → flagged x = true → 174080 < rawValue o.
Proof.
  split; [reflexivity|]. split; [apply sizes_nonneg_dec; reflexivity|].
  destruct (flagged_entry_heavy_page (base := exampleHelpers) (util := exampleUtil)
              (storeOf scenario123) 1%positive throughput100 defaultOptions scenario123
              eq_refl (sizes_nonneg_dec scenario123 eq_refl))
    as (o & h' & top & Hrun & Htop & Hflag & _).
  exists o, h', top. split; [exact Hrun|]. split; [exact Htop|].
  intros x Hx Hfl. by destruct (Hflag x Hx Hfl).
Defined.

(** Scenario 4 for X9. *)
Lemma topResults_characterised_witness :
  storeOf scenario4 !! 1%positive = Some (ArrRecords scenario4) ∧
  ∃ o h' top,
    audit (base := exampleHelpers) (util := exampleUtil)
      1%positive throughput100 defaultOptions (storeOf scenario4) = Some (o, h') ∧
    topResults h' o = Some top ∧
    ∀ s,
      StronglySorted (λ x y, totalBytes y ≤ totalBytes x) s →
      (∀ k, filter (λ x, totalBytes x = k) s =
            filter (λ x, totalBytes x = k)
              (mkResult (base := exampleHelpers) throughput100 <$> filter included scenario4)) →
      top = take 10 s.
Proof.
  split; [reflexivity|].
  exact (topResults_characterised (base := exampleHelpers) (util := exampleUtil)
           (storeOf scenario4) 1%positive throughput100 defaultOptions scenario4 eq_refl).
Defined.

(** The script of scenario 1 for X10, met first. *)
Lemma collect_keeps_total_witness :
  loopStore !! 2%positive = Some (Num 0) ∧
  loopStore !! 3%positive = Some (ArrResults []) ∧
  0 = sumZ (totalBytes <$> ([] : list (Result Qc))) ∧
  ∃ record g' t' a',
    scenario123 !! 0%nat = Some record ∧
    collect (base := exampleHelpers) 2%positive 3%positive throughput100 record loopStore =
      Some ((), g') ∧
    g' !! 2%positive = Some (Num t') ∧ g' !! 3%positive = Some (ArrResults a') ∧
    t' = sumZ (totalBytes <$> a').
Proof.
  split; [reflexivity|]. split; [reflexivity|]. split; [reflexivity|].
  destruct (scenario123 !! 0%nat) as [record|] eqn:Hrec; [|discriminate Hrec].
  destruct (collect_keeps_total (base := exampleHelpers) loopStore
              2%positive 3%positive throughput100 record 0 [] eq_refl eq_refl eq_refl)
    as (g' & t' & a' & Hrun & Htb & Hres & Ht & _).
  by exists record, g', t', a'.
Defined.

(** Scenarios 1 to 3 for X11, against the script alone and no throughput. *)
Lemma score_depends_on_rawValue_witness :
  storeOf scenario123 !! 1%positive = Some (ArrRecords scenario123) ∧
  storeOf (take 1 scenario123) !! 1%positive = Some (ArrRecords (take 1 scenario123)) ∧
  ∃ o h' o' g',
    audit (base := exampleHelpers) (util := exampleUtil)
      1%positive throughput100 defaultOptions (storeOf scenario123) = Some (o, h') ∧
    audit (base := exampleHelpers) (util := exampleUtil)
      1%positive None defaultOptions (storeOf (take 1 scenario123)) = Some (o', g') ∧
    (rawValue o = rawValue o' → score o = score o' ∧ displayValue o = displayValue o').
Proof.
  split; [reflexivity|]. split; [reflexivity|].
  exact (score_depends_on_rawValue (base := exampleHelpers) (util := exampleUtil)
           (storeOf scenario123) 1%positive (storeOf (take 1 scenario123)) 1%positive
           throughput100 None defaultOptions scenario123 (take 1 scenario123)
           eq_refl eq_refl).
Defined.
